(** * lambda_handler.py: lazy initialisation, event classification, dispatch

    A shallow embedding of [src/lambda_handler.py].  The module keeps one
    global flag, calls three external collaborators ([initialize_services]
    and two [Mangum] adapters) and inspects the event through [dict.get].

    Python objects that can be shared and mutated (dicts, lists) live in a
    heap and are referred to by location; immutable values are carried
    directly.  The code of the module is written in a small state and
    exception monad over that heap. *)

From Stdlib Require Import ZArith String List Floats.SpecFloat.
From stdpp Require Import gmap strings list fin_maps.

Local Open Scope string_scope.
Local Open Scope list_scope.

(** ** Python values *)

Abbreviation loc := positive (only parsing).

(** What a JSON-decoded Lambda event is made of.  Containers are references
    into the heap. *)
Inductive pyval : Type :=
| PyNone
| PyBool (b : bool)
| PyInt (z : Z)
| PyFloat (f : spec_float)
| PyStr (s : string)
| PyRef (l : loc).

Inductive pyobj : Type :=
| ObjDict (m : gmap string pyval)
| ObjList (xs : list pyval).

Inductive exn : Type :=
| AttributeError
| Raised (name : string).

(** [Fault] marks the dereference of a location that holds no object.  Python
    has no dangling references, so [Fault] is an artefact of the heap model;
    it is shown unreachable on heaps that hold the objects an event names. *)
Inductive result (A : Type) : Type :=
| Ok (a : A)
| Raise (e : exn)
| Fault.
Arguments Ok {A} a.
Arguments Raise {A} e.
Arguments Fault {A}.

(** ** The state and exception monad *)

Definition M (S A : Type) : Type := S -> result A * S.

Definition ret {S A} (a : A) : M S A := fun s => (Ok a, s).

Definition bind {S A B} (c : M S A) (k : A -> M S B) : M S B :=
  fun s =>
    match c s with
    | (Ok a, s') => k a s'
    | (Raise e, s') => (Raise e, s')
    | (Fault, s') => (Fault, s')
    end.

Declare Scope py_scope.
Delimit Scope py_scope with py.
Notation "'do' x <- c ; k" := (bind c (fun x => k))
  (at level 10, x name, c at level 100, k at level 200) : py_scope.
Notation "'run' c ; k" := (bind c (fun _ => k))
  (at level 10, c at level 100, k at level 200) : py_scope.
Local Open Scope py_scope.

(** ** Heap operations used by the module *)

Module Heap.

(** A dict display [{}]: a new object at a location not yet in use. *)
Definition new_dict : M (gmap loc pyobj) pyval :=
  fun h => let l := fresh (dom h) in (Ok (PyRef l), <[l := ObjDict ∅]> h).

(** The attribute lookup [v.get]: only dicts have the method. *)
Definition getattr_get (v : pyval) : M (gmap loc pyobj) loc :=
  fun h =>
    match v with
    | PyRef l =>
        match h !! l with
        | Some (ObjDict _) => (Ok l, h)
        | Some (ObjList _) => (Raise AttributeError, h)
        | None => (Fault, h)
        end
    | _ => (Raise AttributeError, h)
    end.

(** The call [d.get(key, default)] of the bound method of the dict at [l]. *)
Definition call_get (l : loc) (key : string) (default : pyval)
  : M (gmap loc pyobj) pyval :=
  fun h =>
    match h !! l with
    | Some (ObjDict m) =>
        (Ok (match m !! key with Some v => v | None => default end), h)
    | _ => (Fault, h)
    end.

Definition is_zero (f : spec_float) : bool :=
  match f with S754_zero _ => true | _ => false end.

(** Truth value testing, [bool(v)]. *)
Definition truthy (v : pyval) : M (gmap loc pyobj) bool :=
  fun h =>
    match v with
    | PyNone => (Ok false, h)
    | PyBool b => (Ok b, h)
    | PyInt z => (Ok (negb (z =? 0)%Z), h)
    | PyFloat f => (Ok (negb (is_zero f)), h)
    | PyStr s => (Ok (negb (String.eqb s "")), h)
    | PyRef l =>
        match h !! l with
        | Some (ObjDict m) => (Ok (negb (Nat.eqb (size m) 0)), h)
        | Some (ObjList xs) => (Ok (negb (Nat.eqb (length xs) 0)), h)
        | None => (Fault, h)
        end
    end.

(** [v == s] for a string literal [s]: only an equal string compares
    equal. *)
Definition eq_str (v : pyval) (s : string) : bool :=
  match v with
  | PyStr t => String.eqb t s
  | _ => false
  end.

(** Well-formedness of a heap: a reference names an object, and an object
    only holds references that do. *)
Definition live (h : gmap loc pyobj) (v : pyval) : bool :=
  match v with
  | PyRef l => match h !! l with Some _ => true | None => false end
  | _ => true
  end.

Definition is_dict (h : gmap loc pyobj) (v : pyval) : bool :=
  match v with
  | PyRef l => match h !! l with Some (ObjDict _) => true | _ => false end
  | _ => false
  end.

Definition obj_live (h : gmap loc pyobj) (o : pyobj) : bool :=
  match o with
  | ObjDict m => forallb (fun kv => live h (snd kv)) (map_to_list m)
  | ObjList xs => forallb (live h) xs
  end.

Definition closed (h : gmap loc pyobj) : bool :=
  forallb (fun lo => obj_live h (snd lo)) (map_to_list h).

End Heap.

(** ** Constants *)

Definition API_GATEWAY_BASE_PATH : string := "/prod".
Definition FUNCTION_URL_STAGE : string := "$default".

(** ** The classifier *)

(** Lines 53 and 54: the value bound to the local variable [stage]. *)
Definition resolved_stage (event : pyval) : M (gmap loc pyobj) pyval :=
  do event_get <- Heap.getattr_get event;
  do empty <- Heap.new_dict;
  do request_context <- Heap.call_get event_get "requestContext" empty;
  do request_context_get <- Heap.getattr_get request_context;
  Heap.call_get request_context_get "stage" (PyStr "").

(** Line 55: [not stage or stage == FUNCTION_URL_STAGE]. *)
Definition stage_test (stage : pyval) : M (gmap loc pyobj) bool :=
  do t <- Heap.truthy stage;
  if negb t then ret true else ret (Heap.eq_str stage FUNCTION_URL_STAGE).

Definition _is_function_url_event (event : pyval) : M (gmap loc pyobj) bool :=
  do stage <- resolved_stage event;
  stage_test stage.


(** ** The collaborators *)

(** The keyword arguments a [Mangum] adapter is built with.  [None] for
    [api_gateway_base_path] is a construction that does not pass it. *)
Record MangumConfig : Type := {
  lifespan : string;
  api_gateway_base_path : option string
}.

(** What the module asks of the outside, in the order it asks. *)
Inductive call : Type :=
| LogInfo (msg : string)
| CallInitializeServices
| CallMangum (cfg : MangumConfig) (event context : pyval).

(** The process: the module global, the heap, the state of the application
    behind the collaborators, and the record of the calls made so far. *)
Record state (W : Type) : Type := mkState {
  _services_initialized : bool;
  heap : gmap loc pyobj;
  world : W;
  calls : list call
}.
Arguments mkState {W} _ _ _ _.
Arguments _services_initialized {W} _.
Arguments heap {W} _.
Arguments world {W} _.
Arguments calls {W} _.

Section Handler.

(** The application state the collaborators work on. *)
Variable W : Type.

(** A collaborator may read and write the heap and the application state and
    may raise; the module global is private to the module. *)
Variable initialize_services : M (gmap loc pyobj * W) unit.
Variable Mangum : MangumConfig -> pyval -> pyval -> M (gmap loc pyobj * W) pyval.

Definition read_flag : M (state W) bool :=
  fun s => (Ok (_services_initialized s), s).

Definition write_flag (b : bool) : M (state W) unit :=
  fun s => (Ok tt, mkState b (heap s) (world s) (calls s)).

Definition logger_info (msg : string) : M (state W) unit :=
  fun s => (Ok tt, mkState (_services_initialized s) (heap s) (world s)
                           (calls s ++ [LogInfo msg])).

(** A call out of the module: recorded, then run on the heap and the
    application state. *)
Definition external {A} (c : call) (f : M (gmap loc pyobj * W) A)
  : M (state W) A :=
  fun s =>
    let '(r, (h, w)) := f (heap s, world s) in
    (r, mkState (_services_initialized s) h w (calls s ++ [c])).

(** Code of the module that touches the heap only. *)
Definition on_heap {A} (f : M (gmap loc pyobj) A) : M (state W) A :=
  fun s =>
    let '(r, h) := f (heap s) in
    (r, mkState (_services_initialized s) h (world s) (calls s)).

(** Lines 30 to 34. *)
Definition api_gateway_config : MangumConfig :=
  {| lifespan := "off"; api_gateway_base_path := Some API_GATEWAY_BASE_PATH |}.
Definition function_url_config : MangumConfig :=
  {| lifespan := "off"; api_gateway_base_path := None |}.

Definition _api_gateway_handler (event context : pyval) : M (state W) pyval :=
  external (CallMangum api_gateway_config event context)
           (Mangum api_gateway_config event context).
Definition _function_url_handler (event context : pyval) : M (state W) pyval :=
  external (CallMangum function_url_config event context)
           (Mangum function_url_config event context).

(** Lines 76 to 79. *)
Definition ensure_initialized : M (state W) unit :=
  do initialized <- read_flag;
  if negb initialized then
    run logger_info "First invocation — initializing services...";
    run external CallInitializeServices initialize_services;
    write_flag true
  else ret tt.

(** Lines 83 to 86. *)
Definition route (event context : pyval) : M (state W) pyval :=
  do function_url <- on_heap (_is_function_url_event event);
  if function_url then _function_url_handler event context
  else _api_gateway_handler event context.

Definition handler (event context : pyval) : M (state W) pyval :=
  run ensure_initialized;
  route event context.

(** A process lifetime: the module is loaded once, then invoked in
    sequence; an invocation that raises leaves the process alive. *)
Definition loaded (h : gmap loc pyobj) (w : W) : state W :=
  mkState false h w [].

Fixpoint invocations (evs : list (pyval * pyval)) (s : state W)
  : list (result pyval) * state W :=
  match evs with
  | [] => ([], s)
  | (event, context) :: evs' =>
      let '(r, s1) := handler event context s in
      let '(rs, s2) := invocations evs' s1 in
      (r :: rs, s2)
  end.

End Handler.

(** ** Interleaved invocations

    The same lines of [handler], cut at the points where another thread of
    the process can run: between the test of the flag, the log line, the
    call of [initialize_services], its return, the assignment of the flag and
    the routing.  A call of [initialize_services] takes time: it is entered
    at one step and returns, with its effect, at a later one. *)

Inductive pc : Type :=
| AtCheck
| AtLog
| AtCall
| InSetup
| AtMark
| AtRoute
| Returned (r : result pyval).

Record thread : Type := mkThread {
  th_event : pyval;
  th_context : pyval;
  th_pc : pc
}.

Definition in_setup (t : thread) : bool :=
  match th_pc t with InSetup => true | _ => false end.

Definition at_route (t : thread) : bool :=
  match th_pc t with AtRoute => true | _ => false end.

Definition is_initialize (c : call) : bool :=
  match c with CallInitializeServices => true | _ => false end.

Definition is_dispatch (c : call) : bool :=
  match c with CallMangum _ _ _ => true | _ => false end.

Section Threads.

Variable W : Type.
Variable initialize_services : M (gmap loc pyobj * W) unit.
Variable Mangum : MangumConfig -> pyval -> pyval -> M (gmap loc pyobj * W) pyval.

(** One step of one thread. *)
Definition advance (t : thread) (s : state W) : thread * state W :=
  let goto p := mkThread (th_event t) (th_context t) p in
  match th_pc t with
  | AtCheck =>
      if _services_initialized s then (goto AtRoute, s) else (goto AtLog, s)
  | AtLog =>
      (goto AtCall,
       snd (logger_info W "First invocation — initializing services..." s))
  | AtCall =>
      (goto InSetup,
       mkState (_services_initialized s) (heap s) (world s)
               (calls s ++ [CallInitializeServices]))
  | InSetup =>
      let '(r, (h, w)) := initialize_services (heap s, world s) in
      (goto match r with
            | Ok _ => AtMark
            | Raise e => Returned (Raise e)
            | Fault => Returned Fault
            end,
       mkState (_services_initialized s) h w (calls s))
  | AtMark => (goto AtRoute, snd (write_flag W true s))
  | AtRoute =>
      let '(r, s') := route W Mangum (th_event t) (th_context t) s in
      (goto (Returned r), s')
  | Returned _ => (t, s)
  end.

(** The scheduler picks a thread of the pool by index. *)
Definition step (i : nat) (c : list thread * state W) : list thread * state W :=
  match fst c !! i with
  | Some t => let '(t', s') := advance t (snd c) in (<[i := t']> (fst c), s')
  | None => c
  end.

Definition exec (sched : list nat) (c : list thread * state W)
  : list thread * state W :=
  fold_left (fun c i => step i c) sched c.

(** The invocations that are inside [initialize_services] at once. *)
Definition setups_running (c : list thread * state W) : nat :=
  length (List.filter in_setup (fst c)).

Definition arrive (evs : list (pyval * pyval)) : list thread :=
  map (fun ec => mkThread (fst ec) (snd ec) AtCheck) evs.

(** No invocation is at the routing step, and no adapter has been called,
    while the flag is unset. *)
Definition waits_for_flag (c : list thread * state W) : Prop :=
  (forall i t, fst c !! i = Some t -> th_pc t = AtRoute ->
               _services_initialized (snd c) = true) /\
  (existsb is_dispatch (calls (snd c)) = true ->
   _services_initialized (snd c) = true).

End Threads.

(** ** The stage field of an event

    What the data of an event says, read off the heap without running the
    classifier; the classifier is compared with it. *)





(** ** Schedules and counts used to compare runs *)

(** A caller that has not yet entered [initialize_services] and may still
    do so. *)
Definition pending (t : thread) : bool :=
  match th_pc t with AtCheck | AtLog | AtCall => true | _ => false end.

(** The schedule that lets the callers run one after the other, each to its
    end: an invocation takes at most six steps. *)
Definition in_turn (first n : nat) : list nat :=
  concat (map (fun i => repeat i 6) (seq first n)).

(** The callers once each has returned. *)
Fixpoint returned (evs : list (pyval * pyval)) (rs : list (result pyval))
  : list thread :=
  match evs, rs with
  | (event, context) :: evs', r :: rs' =>
      mkThread event context (Returned r) :: returned evs' rs'
  | _, _ => []
  end.

Definition raised {A} (r : result A) : bool :=
  match r with Raise _ => true | _ => false end.

(** ** Sample events (the scenarios of the specification) *)

Module Sample.

(** [{"requestContext": {"stage": stage}}], the event at location 1. *)
Definition staged (stage : pyval) : gmap loc pyobj :=
  <[1%positive := ObjDict (<["requestContext" := PyRef 2]> ∅)]>
    (<[2%positive := ObjDict (<["stage" := stage]> ∅)]> ∅).

(** [{"requestContext": {}}] *)
Definition no_stage : gmap loc pyobj :=
  <[1%positive := ObjDict (<["requestContext" := PyRef 2]> ∅)]>
    (<[2%positive := ObjDict ∅]> ∅).

(** [{"rawPath": "/health"}] *)
Definition no_request_context : gmap loc pyobj :=
  <[1%positive := ObjDict (<["rawPath" := PyStr "/health"]> ∅)]> ∅.

(** [{"requestContext": rc}] for a request context that is not a dict. *)
Definition malformed (rc : pyval) : gmap loc pyobj :=
  <[1%positive := ObjDict (<["requestContext" := rc]> ∅)]> ∅.

Definition event : pyval := PyRef 1.

(** Collaborators that do nothing, on an application without state. *)
Definition setup_ok : M (gmap loc pyobj * unit) unit := ret tt.
Definition setup_fails : M (gmap loc pyobj * unit) unit :=
  fun e => (Raise (Raised "ConnectionError"), e).
Definition adapter (cfg : MangumConfig) (event context : pyval)
  : M (gmap loc pyobj * unit) pyval :=
  ret (PyStr match api_gateway_base_path cfg with Some p => p | None => "" end).

(** Two invocations that arrive together in a freshly loaded process, and
    the schedule that alternates between them. *)
Definition two_callers : list thread * state unit :=
  (arrive [(event, PyNone); (event, PyNone)],
   loaded unit (staged (PyStr "prod")) tt).

Definition alternate (n : nat) : list nat := concat (repeat [0; 1] n).

End Sample.

(** * Properties of the classifier *)

Ltac py_unfold :=
  unfold _is_function_url_event, resolved_stage, stage_test, bind, ret,
    Heap.new_dict, Heap.getattr_get, Heap.call_get, Heap.truthy in *.

Lemma classifier_after_stage event h h' stage :
  resolved_stage event h = (Ok stage, h') ->
  _is_function_url_event event h = stage_test stage h'.
Proof.
  intros Hst. unfold _is_function_url_event, bind. now rewrite Hst.
Qed.

Lemma stage_test_heap stage h : snd (stage_test stage h) = h.
Proof.
  unfold stage_test, bind, ret, Heap.truthy.
  destruct stage as [| b | z | f | s | l]; simpl;
    repeat match goal with
      | |- context [h !! ?l] => destruct (h !! l) as [[m | xs] |]; simpl
      | |- context [if ?c then _ else _] => destruct c; simpl
      end; reflexivity.
Qed.

Lemma stage_test_string s h :
  stage_test (PyStr s) h =
    (Ok (String.eqb s "" || String.eqb s FUNCTION_URL_STAGE), h).
Proof.
  unfold stage_test, bind, ret, Heap.truthy, Heap.eq_str.
  destruct (String.eqb s ""); reflexivity.
Qed.

Lemma stage_test_falsy stage h :
  Heap.truthy stage h = (Ok false, h) -> stage_test stage h = (Ok true, h).
Proof.
  intros Hf. unfold stage_test, bind. rewrite Hf. reflexivity.
Qed.

(** The heap the classifier leaves is the heap it found, with at most the
    dict of the [{}] display added at an unused location. *)
Lemma resolved_stage_heap event h :
  snd (resolved_stage event h) = h \/
  snd (resolved_stage event h) = <[fresh (dom h) := ObjDict ∅]> h.
Proof.
  py_unfold.
  destruct event as [| | | | | l]; simpl; auto.
  destruct (h !! l) as [[m | xs] |] eqn:Hl; simpl; auto.
  assert (Hne : fresh (dom h) <> l).
  { intros Heq. apply (is_fresh (dom h)). rewrite Heq.
    apply elem_of_dom. eauto. }
  rewrite lookup_insert_ne by exact Hne. rewrite Hl.
  destruct (m !! "requestContext") as [rc |]; simpl.
  - destruct rc as [| | | | | l2]; simpl; auto.
    destruct (<[fresh (dom h):=ObjDict ∅]> h !! l2) as [[m2 | xs2] |] eqn:Hl2;
      simpl; rewrite ?Hl2; simpl; auto.
  - rewrite lookup_insert_eq. simpl. rewrite lookup_insert_eq. auto.
Qed.

Lemma classifier_heap event h :
  snd (_is_function_url_event event h) = h \/
  snd (_is_function_url_event event h) = <[fresh (dom h) := ObjDict ∅]> h.
Proof.
  pose proof (resolved_stage_heap event h) as Hh.
  unfold _is_function_url_event, bind.
  destruct (resolved_stage event h) as [[stage | e |] h1]; simpl in *; auto.
  rewrite stage_test_heap. exact Hh.
Qed.

Lemma fresh_insert_keeps (h : gmap loc pyobj) o l x :
  h !! l = Some x -> <[fresh (dom h) := o]> h !! l = Some x.
Proof.
  intros Hl. rewrite lookup_insert_ne; [exact Hl |].
  intros Heq. apply (is_fresh (dom h)). rewrite Heq. apply elem_of_dom. eauto.
Qed.

Lemma classifier_keeps event h l o :
  h !! l = Some o -> snd (_is_function_url_event event h) !! l = Some o.
Proof.
  intros Hl. destruct (classifier_heap event h) as [-> | ->]; [exact Hl |].
  now apply fresh_insert_keeps.
Qed.

Lemma closed_lookup h l m key v :
  Heap.closed h = true ->
  h !! l = Some (ObjDict m) -> m !! key = Some v -> Heap.live h v = true.
Proof.
  intros Hc Hl Hk. unfold Heap.closed in Hc.
  rewrite forallb_forall in Hc.
  assert (Ho : Heap.obj_live h (ObjDict m) = true).
  { apply (Hc (l, ObjDict m)). apply list_elem_of_In.
    now apply elem_of_map_to_list. }
  simpl in Ho. rewrite forallb_forall in Ho.
  apply (Ho (key, v)). apply list_elem_of_In. now apply elem_of_map_to_list.
Qed.

Lemma resolved_stage_absent h l m :
  h !! l = Some (ObjDict m) -> m !! "requestContext" = None ->
  resolved_stage (PyRef l) h =
    (Ok (PyStr ""), <[fresh (dom h) := ObjDict ∅]> h).
Proof.
  intros Hl Hrc. py_unfold. rewrite Hl.
  rewrite (fresh_insert_keeps h _ l _ Hl). rewrite Hrc.
  rewrite lookup_insert_eq. simpl. rewrite lookup_insert_eq.
  rewrite lookup_empty. reflexivity.
Qed.

Lemma resolved_stage_present h l m l2 m2 :
  h !! l = Some (ObjDict m) -> m !! "requestContext" = Some (PyRef l2) ->
  h !! l2 = Some (ObjDict m2) ->
  resolved_stage (PyRef l) h =
    (Ok (match m2 !! "stage" with Some v => v | None => PyStr "" end),
     <[fresh (dom h) := ObjDict ∅]> h).
Proof.
  intros Hl Hrc Hl2. py_unfold. rewrite Hl.
  rewrite (fresh_insert_keeps h _ l _ Hl). rewrite Hrc.
  rewrite (fresh_insert_keeps h _ l2 _ Hl2). simpl.
  rewrite (fresh_insert_keeps h _ l2 _ Hl2). reflexivity.
Qed.

Lemma resolved_stage_malformed h l m rc :
  h !! l = Some (ObjDict m) -> m !! "requestContext" = Some rc ->
  Heap.live h rc = true -> Heap.is_dict h rc = false ->
  resolved_stage (PyRef l) h =
    (Raise AttributeError, <[fresh (dom h) := ObjDict ∅]> h).
Proof.
  intros Hl Hrc Hlive Hnd. py_unfold. rewrite Hl.
  rewrite (fresh_insert_keeps h _ l _ Hl). rewrite Hrc.
  destruct rc as [| | | | | l2]; simpl; try reflexivity.
  unfold Heap.live, Heap.is_dict in *.
  destruct (h !! l2) as [[m2 | xs] |] eqn:Hl2; try discriminate.
  rewrite (fresh_insert_keeps h _ l2 _ Hl2). reflexivity.
Qed.

Lemma stage_test_total h stage :
  Heap.live h stage = true -> exists b, stage_test stage h = (Ok b, h).
Proof.
  intros Hlive. unfold stage_test, bind, ret, Heap.truthy, Heap.live in *.
  destruct stage as [| b | z | f | s | l3]; simpl;
    repeat match goal with
      | H : context [h !! ?l] |- _ =>
          destruct (h !! l) as [[m | xs] |]; simpl; try discriminate H
      | |- context [if ?c then _ else _] => destruct c; simpl
      end; eauto.
Qed.

Lemma live_after_fresh h o v :
  Heap.live h v = true -> Heap.live (<[fresh (dom h) := o]> h) v = true.
Proof.
  unfold Heap.live. destruct v as [| | | | | l]; auto.
  destruct (h !! l) as [x |] eqn:Hl; [| discriminate].
  now rewrite (fresh_insert_keeps h o l x Hl).
Qed.



(** C4, as the claim states it, fails: an event whose [requestContext] is
    present but is [None] makes [request_context.get] raise
    [AttributeError]; the event is not classified. *)
Lemma malformed_request_context_raises :
  fst (_is_function_url_event Sample.event (Sample.malformed PyNone))
    = Raise AttributeError
  /\ fst (_is_function_url_event Sample.event (Sample.malformed PyNone))
    <> Ok true.
Proof. split; [reflexivity | discriminate]. Qed.

(** C4, amended.  On a well-formed heap, for a dict event: an absent
    [requestContext] is classified as a Function URL event; a
    [requestContext] that is a dict always yields an answer, and the answer
    is [True] when it has no [stage]; a [requestContext] that is present and
    is not a dict raises [AttributeError]. *)
Theorem classifier_total_on_dict_context h l m :
  Heap.closed h = true ->
  h !! l = Some (ObjDict m) ->
  (m !! "requestContext" = None ->
     fst (_is_function_url_event (PyRef l) h) = Ok true) /\
  (forall l2 m2,
     m !! "requestContext" = Some (PyRef l2) -> h !! l2 = Some (ObjDict m2) ->
     exists b, fst (_is_function_url_event (PyRef l) h) = Ok b /\
               (m2 !! "stage" = None -> b = true)) /\
  (forall rc,
     m !! "requestContext" = Some rc -> Heap.is_dict h rc = false ->
     fst (_is_function_url_event (PyRef l) h) = Raise AttributeError).
Proof.
  intros Hc Hl. repeat split.
  - intros Hrc.
    rewrite (classifier_after_stage _ _ _ _ (resolved_stage_absent h l m Hl Hrc)).
    rewrite stage_test_string. reflexivity.
  - intros l2 m2 Hrc Hl2.
    rewrite (classifier_after_stage _ _ _ _
               (resolved_stage_present h l m l2 m2 Hl Hrc Hl2)).
    destruct (m2 !! "stage") as [v |] eqn:Hv.
    + pose proof (closed_lookup h l2 m2 "stage" v Hc Hl2 Hv) as Hlive.
      destruct (stage_test_total _ v (live_after_fresh h (ObjDict ∅) v Hlive))
        as [b Hb].
      exists b. rewrite Hb. split; [reflexivity | discriminate].
    + exists true. rewrite stage_test_string. split; reflexivity.
  - intros rc Hrc Hnd.
    pose proof (closed_lookup h l m "requestContext" rc Hc Hl Hrc) as Hlive.
    unfold _is_function_url_event, bind.
    rewrite (resolved_stage_malformed h l m rc Hl Hrc Hlive Hnd). reflexivity.
Qed.

Lemma classifier_total_on_dict_context_witness :
  Heap.closed Sample.no_request_context = true /\
  Sample.no_request_context !! 1%positive
    = Some (ObjDict (<["rawPath" := PyStr "/health"]> ∅)) /\
  fst (_is_function_url_event Sample.event Sample.no_request_context) = Ok true.
Proof.
  split; [reflexivity |]. split; [reflexivity |].
  apply (classifier_total_on_dict_context Sample.no_request_context 1%positive
           (<["rawPath" := PyStr "/health"]> ∅));
    reflexivity.
Defined.






(** C10.  The first disjunct of line 55 is truth value testing: whenever
    the value bound to [stage] is falsy ([None], [0], [False], [0.0], an
    empty list or dict, as well as the empty string), the classifier answers
    [True]. *)
Theorem falsy_stage_is_function_url event h h' stage :
  resolved_stage event h = (Ok stage, h') ->
  Heap.truthy stage h' = (Ok false, h') ->
  _is_function_url_event event h = (Ok true, h').
Proof.
  intros Hst Hf. rewrite (classifier_after_stage _ _ _ _ Hst).
  now apply stage_test_falsy.
Qed.

Lemma falsy_stage_is_function_url_witness :
  resolved_stage Sample.event (Sample.staged (PyInt 0)) =
    (Ok (PyInt 0), <[3%positive := ObjDict ∅]> (Sample.staged (PyInt 0))) /\
  _is_function_url_event Sample.event (Sample.staged (PyInt 0)) =
    (Ok true, <[3%positive := ObjDict ∅]> (Sample.staged (PyInt 0))).
Proof.
  split; [reflexivity |].
  apply (falsy_stage_is_function_url Sample.event (Sample.staged (PyInt 0))
           (<[3%positive := ObjDict ∅]> (Sample.staged (PyInt 0))) (PyInt 0));
    reflexivity.
Defined.

(** The falsy values a JSON-shaped stage can take. *)
Lemma falsy_values h l :
  Heap.truthy PyNone h = (Ok false, h) /\
  Heap.truthy (PyBool false) h = (Ok false, h) /\
  Heap.truthy (PyInt 0) h = (Ok false, h) /\
  Heap.truthy (PyFloat (S754_zero false)) h = (Ok false, h) /\
  (h !! l = Some (ObjDict ∅) -> Heap.truthy (PyRef l) h = (Ok false, h)) /\
  (h !! l = Some (ObjList []) -> Heap.truthy (PyRef l) h = (Ok false, h)).
Proof.
  repeat split; try reflexivity; intros Hl; unfold Heap.truthy; now rewrite Hl.
Qed.

(** * Properties of the entry point *)

Section HandlerFacts.

Variable W : Type.
Variable initialize_services : M (gmap loc pyobj * W) unit.
Variable Mangum : MangumConfig -> pyval -> pyval -> M (gmap loc pyobj * W) pyval.

Local Abbreviation ensure_initialized_ := (ensure_initialized W initialize_services).
Local Abbreviation route_ := (route W Mangum).
Local Abbreviation handler_ := (handler W initialize_services Mangum).
Local Abbreviation invocations_ := (invocations W initialize_services Mangum).
Local Abbreviation first_log :=
  (LogInfo "First invocation — initializing services...").

Lemma ensure_ready s :
  _services_initialized s = true -> ensure_initialized_ s = (Ok tt, s).
Proof.
  intros Hf. unfold ensure_initialized, bind, read_flag. rewrite Hf. reflexivity.
Qed.

(** What the gate does when the flag is unset: the log line, the call, and
    the assignment only if the call returns. *)
Lemma ensure_first s :
  _services_initialized s = false ->
  ensure_initialized_ s =
    let '(r, (h, w)) := initialize_services (heap s, world s) in
    let cs := calls s ++ [first_log; CallInitializeServices] in
    match r with
    | Ok _ => (Ok tt, mkState true h w cs)
    | Raise e => (Raise e, mkState false h w cs)
    | Fault => (Fault, mkState false h w cs)
    end.
Proof.
  intros Hf.
  unfold ensure_initialized, bind, read_flag, logger_info, external, write_flag.
  rewrite Hf. simpl. rewrite Hf.
  destruct (initialize_services (heap s, world s)) as [[u | e |] [h w]];
    simpl; rewrite <- app_assoc; reflexivity.
Qed.

(** Lines 83 to 86 in one equation: the classifier runs on the heap, then the
    adapter it selects is called with the event and the context as they
    came, and nothing follows that call. *)
Lemma route_equation event context s :
  route_ event context s =
    let '(r, h1) := _is_function_url_event event (heap s) in
    let s1 := mkState (_services_initialized s) h1 (world s) (calls s) in
    match r with
    | Ok b =>
        let cfg := if b then function_url_config else api_gateway_config in
        external W (CallMangum cfg event context) (Mangum cfg event context) s1
    | Raise e => (Raise e, s1)
    | Fault => (Fault, s1)
    end.
Proof.
  unfold route, bind, on_heap.
  destruct (_is_function_url_event event (heap s)) as [[[|] | e |] h1];
    reflexivity.
Qed.

Lemma external_flag {A} c (f : M (gmap loc pyobj * W) A) s :
  _services_initialized (snd (external W c f s)) = _services_initialized s.
Proof.
  unfold external. destruct (f (heap s, world s)) as [r [h w]]. reflexivity.
Qed.

Lemma external_calls {A} c (f : M (gmap loc pyobj * W) A) s :
  calls (snd (external W c f s)) = calls s ++ [c].
Proof.
  unfold external. destruct (f (heap s, world s)) as [r [h w]]. reflexivity.
Qed.

Lemma route_flag event context s :
  _services_initialized (snd (route_ event context s)) = _services_initialized s.
Proof.
  rewrite route_equation.
  destruct (_is_function_url_event event (heap s)) as [[b | e |] h1];
    simpl; try reflexivity.
  now rewrite external_flag.
Qed.

(** Routing makes no call of [initialize_services]. *)
Lemma route_calls event context s :
  exists cs, calls (snd (route_ event context s)) = calls s ++ cs /\
             List.filter is_initialize cs = [].
Proof.
  rewrite route_equation.
  destruct (_is_function_url_event event (heap s)) as [[b | e |] h1]; simpl.
  - rewrite external_calls. simpl. eexists. split; [reflexivity |]. reflexivity.
  - exists []. now rewrite app_nil_r.
  - exists []. now rewrite app_nil_r.
Qed.

Lemma handler_ready event context s :
  _services_initialized s = true ->
  handler_ event context s = route_ event context s.
Proof.
  intros Hf. unfold handler, bind. now rewrite (ensure_ready s Hf).
Qed.




(** C2.  When the flag is unset and [initialize_services] raises, the
    invocation raises the same exception, the flag stays unset, nothing is
    dispatched (the log line and the setup call are all the process did),
    and the next invocation logs and calls [initialize_services] again. *)
Theorem failed_setup_is_retried s event context e env' :
  _services_initialized s = false ->
  initialize_services (heap s, world s) = (Raise e, env') ->
  let s1 := snd (handler_ event context s) in
  fst (handler_ event context s) = Raise e /\
  _services_initialized s1 = false /\
  calls s1 = calls s ++ [first_log; CallInitializeServices] /\
  (heap s1, world s1) = env' /\
  forall event' context',
    exists cs,
      calls (snd (handler_ event' context' s1))
        = calls s1 ++ first_log :: CallInitializeServices :: cs.
Proof.
  intros Hf Hraise. unfold handler at 1 2, bind. cbv zeta.
  rewrite (ensure_first s Hf), Hraise. destruct env' as [h1 w1]. simpl.
  repeat (split; [reflexivity |]).
  intros event' context'. unfold handler, bind.
  rewrite ensure_first by reflexivity. simpl.
  destruct (initialize_services (h1, w1)) as [[u | e2 |] [h2 w2]]; simpl.
  - destruct (route_calls event' context'
                (mkState true h2 w2
                   ((calls s ++ [first_log; CallInitializeServices]) ++
                    [first_log; CallInitializeServices])))
      as (cs & Hcs & _).
    exists cs. rewrite Hcs. simpl. now rewrite <- app_assoc.
  - exists []. reflexivity.
  - exists []. reflexivity.
Qed.


(** C6.  Whatever the selected adapter does (return a value or raise) is
    the outcome of [handler], and the process is left as the adapter left
    it: nothing runs after the adapter. *)
Theorem pass_through s s1 event context b h1 r env' :
  ensure_initialized_ s = (Ok tt, s1) ->
  _is_function_url_event event (heap s1) = (Ok b, h1) ->
  Mangum (if b then function_url_config else api_gateway_config)
    event context (h1, world s1) = (r, env') ->
  handler_ event context s =
    (r, mkState (_services_initialized s1) (fst env') (snd env')
          (calls s1 ++
           [CallMangum (if b then function_url_config else api_gateway_config)
              event context])).
Proof.
  intros Hgate Hcl Had. unfold handler, bind.
  rewrite Hgate, route_equation. simpl. rewrite Hcl.
  unfold external. simpl. rewrite Had. now destruct env'.
Qed.

(** C7.  The classifier leaves every object of the heap as it found it
    (it only adds the dict of the [{}] display at an unused location), and
    the dispatch path hands the adapter the event and the context it
    received, on that heap; what the heap is after that is the adapter's
    doing. *)
Theorem core_leaves_objects_alone event context s :
  let '(r, h1) := _is_function_url_event event (heap s) in
  let s1 := mkState (_services_initialized s) h1 (world s) (calls s) in
  (forall l o, heap s !! l = Some o -> h1 !! l = Some o) /\
  route_ event context s =
    match r with
    | Ok b =>
        let cfg := if b then function_url_config else api_gateway_config in
        external W (CallMangum cfg event context) (Mangum cfg event context) s1
    | Raise e => (Raise e, s1)
    | Fault => (Fault, s1)
    end.
Proof.
  pose proof (route_equation event context s) as Hr.
  pose proof (classifier_keeps event (heap s)) as Hk.
  destruct (_is_function_url_event event (heap s)) as [r h1]. simpl in *.
  split; [exact Hk | exact Hr].
Qed.

End HandlerFacts.

(** ** The theorems at the scenarios of the specification *)


(** Scenario D, first call: setup fails, the invocation raises, the flag
    stays unset. *)
Lemma failed_setup_is_retried_witness :
  _services_initialized (loaded unit (Sample.staged (PyStr "prod")) tt) = false /\
  Sample.setup_fails (Sample.staged (PyStr "prod"), tt)
    = (Raise (Raised "ConnectionError"), (Sample.staged (PyStr "prod"), tt)) /\
  fst (handler unit Sample.setup_fails Sample.adapter Sample.event PyNone
         (loaded unit (Sample.staged (PyStr "prod")) tt))
    = Raise (Raised "ConnectionError").
Proof.
  split; [reflexivity |]. split; [reflexivity |].
  exact (proj1 (failed_setup_is_retried unit Sample.setup_fails Sample.adapter
                  (loaded unit (Sample.staged (PyStr "prod")) tt)
                  Sample.event PyNone (Raised "ConnectionError")
                  (Sample.staged (PyStr "prod"), tt) eq_refl eq_refl)).
Defined.


(** Scenario B: stage ["$default"] goes to the adapter built without a base
    path, and its answer comes back as it is. *)
Lemma pass_through_witness :
  handler unit Sample.setup_ok Sample.adapter Sample.event PyNone
    (mkState true (Sample.staged (PyStr "$default")) tt [])
  = (Ok (PyStr ""),
     mkState true
       (<[3%positive := ObjDict ∅]> (Sample.staged (PyStr "$default"))) tt
       [CallMangum function_url_config Sample.event PyNone]).
Proof.
  exact (pass_through unit Sample.setup_ok Sample.adapter
           (mkState true (Sample.staged (PyStr "$default")) tt [])
           (mkState true (Sample.staged (PyStr "$default")) tt [])
           Sample.event PyNone true
           (<[3%positive := ObjDict ∅]> (Sample.staged (PyStr "$default")))
           (Ok (PyStr ""))
           (<[3%positive := ObjDict ∅]> (Sample.staged (PyStr "$default")), tt)
           eq_refl eq_refl eq_refl).
Defined.

(** * Interleaved invocations *)

Section ThreadFacts.

Variable W : Type.
Variable initialize_services : M (gmap loc pyobj * W) unit.
Variable Mangum : MangumConfig -> pyval -> pyval -> M (gmap loc pyobj * W) pyval.

Local Abbreviation advance_ := (advance W initialize_services Mangum).
Local Abbreviation step_ := (step W initialize_services Mangum).
Local Abbreviation exec_ := (exec W initialize_services Mangum).
Local Abbreviation handler_ := (handler W initialize_services Mangum).
Local Abbreviation route_ := (route W Mangum).
#[local] Arguments route : simpl never.
#[local] Arguments _is_function_url_event : simpl never.

Lemma exec_cons i sched c : exec_ (i :: sched) c = exec_ sched (step_ i c).
Proof. reflexivity. Qed.

Lemma step_alone t s :
  step_ 0 ([t], s) = ([fst (advance_ t s)], snd (advance_ t s)).
Proof.
  unfold step. cbn [fst snd].
  change ([t] !! 0) with (Some t). cbv beta iota.
  set (a := advance_ t s). destruct a as [t' s']. reflexivity.
Qed.

Lemma advance_route event context s :
  advance_ (mkThread event context AtRoute) s =
    (mkThread event context (Returned (fst (route_ event context s))),
     snd (route_ event context s)).
Proof.
  unfold advance. cbn [th_pc th_event th_context].
  destruct (route_ event context s) as [r s']. reflexivity.
Qed.

Lemma advance_setup event context s :
  advance_ (mkThread event context InSetup) s =
    let '(r, (h, w)) := initialize_services (heap s, world s) in
    (mkThread event context
       match r with
       | Ok _ => AtMark
       | Raise e => Returned (Raise e)
       | Fault => Returned Fault
       end,
     mkState (_services_initialized s) h w (calls s)).
Proof. reflexivity. Qed.

Lemma exec_returned sched event context r s :
  exec_ sched ([mkThread event context (Returned r)], s)
    = ([mkThread event context (Returned r)], s).
Proof.
  induction sched as [| i sched IH]; [reflexivity |].
  rewrite exec_cons. destruct i as [| i]; [| exact IH].
  rewrite step_alone. exact IH.
Qed.

(** One invocation that runs alone, step by step, is [handler]. *)
Lemma alone_is_handler event context s :
  exec_ [0; 0; 0; 0; 0; 0] ([mkThread event context AtCheck], s) =
    let '(r, s') := handler_ event context s in
    ([mkThread event context (Returned r)], s').
Proof.
  unfold handler, bind.
  destruct (_services_initialized s) eqn:Hf.
  - rewrite (ensure_ready W initialize_services s Hf).
    rewrite exec_cons, step_alone.
    assert (Ha : advance_ (mkThread event context AtCheck) s
                 = (mkThread event context AtRoute, s)).
    { unfold advance. cbn [th_pc th_event th_context]. now rewrite Hf. }
    rewrite Ha. cbn [fst snd].
    rewrite exec_cons, step_alone, advance_route. cbn [fst snd].
    rewrite exec_returned.
    destruct (route_ event context s) as [r s'].
    reflexivity.
  - rewrite (ensure_first W initialize_services s Hf).
    rewrite exec_cons, step_alone.
    assert (Ha : advance_ (mkThread event context AtCheck) s
                 = (mkThread event context AtLog, s)).
    { unfold advance. cbn [th_pc th_event th_context]. now rewrite Hf. }
    rewrite Ha. cbn [fst snd].
    do 2 (rewrite exec_cons, step_alone;
          unfold advance at 1 2; cbn [th_pc th_event th_context fst snd]).
    rewrite exec_cons, step_alone, advance_setup.
    unfold logger_info. cbn [fst snd heap world calls _services_initialized].
    rewrite <- app_assoc. cbn [app].
    destruct (initialize_services (heap s, world s)) as [[u | e |] [h1 w1]];
      cbn [fst snd].
    + rewrite exec_cons, step_alone.
      unfold advance at 1 2. unfold write_flag.
      cbn [th_pc th_event th_context fst snd heap world calls].
      rewrite exec_cons, step_alone, advance_route. cbn [fst snd].
      rewrite exec_returned.
      destruct (route_ event context _) as [r s']. reflexivity.
    + rewrite exec_returned, Hf. reflexivity.
    + rewrite exec_returned, Hf. reflexivity.
Qed.

Lemma advance_flag t s :
  _services_initialized s = true ->
  _services_initialized (snd (advance_ t s)) = true.
Proof.
  intros Hf. unfold advance.
  destruct (th_pc t); cbn [fst snd _services_initialized logger_info write_flag];
    try exact Hf; try reflexivity.
  - now rewrite Hf.
  - destruct (initialize_services (heap s, world s)) as [r [h w]]. exact Hf.
  - pose proof (route_flag W Mangum (th_event t) (th_context t) s) as Hr.
    destruct (route_ (th_event t) (th_context t) s) as [r s'].
    cbn [fst snd] in *. now rewrite Hr.
Qed.

Lemma advance_to_route t s :
  th_pc (fst (advance_ t s)) = AtRoute ->
  _services_initialized (snd (advance_ t s)) = true.
Proof.
  unfold advance.
  destruct (th_pc t) eqn:Hpc;
    cbn [fst snd th_pc _services_initialized write_flag]; try discriminate.
  - destruct (_services_initialized s) eqn:Hf; cbn [fst snd th_pc];
      [auto | discriminate].
  - destruct (initialize_services (heap s, world s)) as [[u | e |] [h w]];
      cbn [fst snd th_pc]; discriminate.
  - reflexivity.
  - destruct (route_ (th_event t) (th_context t) s) as [r s'].
    cbn [fst snd th_pc]. discriminate.
  - intros Hr. congruence.
Qed.

(** Only the routing step calls an adapter. *)
Lemma advance_dispatch t s :
  th_pc t <> AtRoute ->
  existsb is_dispatch (calls (snd (advance_ t s)))
    = existsb is_dispatch (calls s).
Proof.
  intros Hpc. unfold advance.
  destruct (th_pc t); cbn [fst snd calls logger_info write_flag];
    try reflexivity.
  - destruct (_services_initialized s); reflexivity.
  - rewrite existsb_app. cbn [existsb is_dispatch]. now rewrite !orb_false_r.
  - rewrite existsb_app. cbn [existsb is_dispatch]. now rewrite !orb_false_r.
  - destruct (initialize_services (heap s, world s)) as [r [h w]]. reflexivity.
  - contradiction.
Qed.

Lemma step_waits i c :
  waits_for_flag W c -> waits_for_flag W (step_ i c).
Proof.
  intros [Hroute Hdisp]. unfold step.
  destruct (fst c !! i) as [t |] eqn:Hi; [| split; assumption].
  pose proof (advance_flag t (snd c)) as Hmono.
  pose proof (advance_to_route t (snd c)) as Hto.
  pose proof (advance_dispatch t (snd c)) as Hd.
  destruct (advance_ t (snd c)) as [t' s'] eqn:Hadv. cbn [fst snd] in *.
  split; cbn [fst snd].
  - intros j u Hj Hu.
    apply list_lookup_insert_Some in Hj as [(_ & <- & _) | (_ & Hj)].
    + now apply Hto.
    + apply Hmono. exact (Hroute j u Hj Hu).
  - intros Hcalled.
    assert (Hpc : th_pc t = AtRoute \/ th_pc t <> AtRoute).
    { destruct (th_pc t); auto; right; discriminate. }
    destruct Hpc as [Hat | Hnot].
    + apply Hmono. exact (Hroute i t Hi Hat).
    + apply Hmono, Hdisp. now rewrite <- (Hd Hnot).
Qed.

Lemma exec_waits sched : forall c,
  waits_for_flag W c -> waits_for_flag W (exec_ sched c).
Proof.
  induction sched as [| i sched IH]; intros c Hc; [exact Hc |].
  rewrite exec_cons. apply IH. now apply step_waits.
Qed.

Lemma step_flag i c :
  _services_initialized (snd c) = true ->
  _services_initialized (snd (step_ i c)) = true.
Proof.
  intros Hf. unfold step. destruct (fst c !! i) as [t |]; [| exact Hf].
  pose proof (advance_flag t (snd c) Hf) as Hmono.
  destruct (advance_ t (snd c)) as [t' s']. exact Hmono.
Qed.

Lemma exec_flag sched : forall c,
  _services_initialized (snd c) = true ->
  _services_initialized (snd (exec_ sched c)) = true.
Proof.
  induction sched as [| i sched IH]; intros c Hf; [exact Hf |].
  rewrite exec_cons. apply IH. now apply step_flag.
Qed.

Lemma arrive_at_check evs i t :
  arrive evs !! i = Some t -> th_pc t = AtCheck.
Proof.
  unfold arrive. rewrite list_lookup_fmap.
  destruct (evs !! i); cbn; [| discriminate].
  intros [= <-]. reflexivity.
Qed.

(** C8, amended.  [handler] takes no lock.  In every interleaving of
    invocations that arrive in a freshly loaded process: no invocation is at
    the routing step, and no adapter has been called, while the flag is
    unset; the flag, once set, stays set; and an invocation that tests the
    flag after it was set goes to the routing step without calling
    [initialize_services]. *)
Theorem interleaved_callers_wait_for_flag evs h w sched :
  let c := exec_ sched (arrive evs, loaded W h w) in
  (forall i t, fst c !! i = Some t -> th_pc t = AtRoute ->
               _services_initialized (snd c) = true) /\
  (existsb is_dispatch (calls (snd c)) = true ->
   _services_initialized (snd c) = true) /\
  (forall sched',
     _services_initialized (snd c) = true ->
     _services_initialized (snd (exec_ sched' c)) = true) /\
  (forall event context s,
     _services_initialized s = true ->
     advance_ (mkThread event context AtCheck) s
       = (mkThread event context AtRoute, s)).
Proof.
  cbv zeta.
  assert (Hinit : waits_for_flag W (arrive evs, loaded W h w)).
  { split; cbn [fst snd].
    - intros i t Hi Hpc. apply arrive_at_check in Hi. congruence.
    - cbn. discriminate. }
  destruct (exec_waits sched _ Hinit) as [Hroute Hdisp].
  split; [exact Hroute |]. split; [exact Hdisp |]. split.
  - intros sched' Hf. now apply exec_flag.
  - intros event context s Hf. unfold advance.
    cbn [th_pc th_event th_context]. now rewrite Hf.
Qed.

End ThreadFacts.

(** C8, as the claim states it, fails: nothing in [handler] serializes the
    first-call setup.  Two invocations that both test the flag before either
    has set it are inside [initialize_services] at the same time, and the
    process ends up having called it twice. *)
Lemma setup_runs_twice_at_once :
  setups_running unit
    (exec unit Sample.setup_ok Sample.adapter (Sample.alternate 3)
       Sample.two_callers) = 2 /\
  length (List.filter is_initialize
            (calls (snd (exec unit Sample.setup_ok Sample.adapter
                           (Sample.alternate 6) Sample.two_callers)))) = 2 /\
  ~ (forall sched,
       setups_running unit
         (exec unit Sample.setup_ok Sample.adapter sched Sample.two_callers)
       <= 1).
Proof.
  assert (Htwo : setups_running unit
                   (exec unit Sample.setup_ok Sample.adapter
                      (Sample.alternate 3) Sample.two_callers) = 2)
    by reflexivity.
  split; [exact Htwo |]. split; [reflexivity |].
  intros Hall. specialize (Hall (Sample.alternate 3)).
  rewrite Htwo in Hall. lia.
Qed.

Lemma interleaved_callers_wait_for_flag_witness :
  _services_initialized
    (snd (exec unit Sample.setup_ok Sample.adapter (Sample.alternate 6)
            (arrive [(Sample.event, PyNone); (Sample.event, PyNone)],
             loaded unit (Sample.staged (PyStr "prod")) tt))) = true.
Proof.
  apply (proj1 (proj2 (interleaved_callers_wait_for_flag
                         unit Sample.setup_ok Sample.adapter
                         [(Sample.event, PyNone); (Sample.event, PyNone)]
                         (Sample.staged (PyStr "prod")) tt
                         (Sample.alternate 6)))).
  reflexivity.
Defined.

Lemma core_leaves_objects_alone_witness :
  snd (_is_function_url_event Sample.event (Sample.staged (PyStr "prod")))
    !! 1%positive
  = Some (ObjDict (<["requestContext" := PyRef 2]> ∅)).
Proof.
  pose proof (core_leaves_objects_alone unit Sample.adapter Sample.event PyNone
                (mkState true (Sample.staged (PyStr "prod")) tt [])) as Hcore.
  cbn [heap] in Hcore.
  destruct (_is_function_url_event Sample.event (Sample.staged (PyStr "prod")))
    as [r h1].
  destruct Hcore as [Hkeep _]. apply Hkeep. reflexivity.
Defined.

(** * Further properties of the classifier *)

(** X1.  The classifier raises nothing but [AttributeError]: on a
    well-formed heap, whatever the event is (a dict or not, with or without
    a [requestContext] of any shape), it either answers or raises
    [AttributeError]; there is no [KeyError] path. *)
Theorem classifier_raises_only_attribute_error h event :
  Heap.closed h = true ->
  Heap.live h event = true ->
  (exists b, fst (_is_function_url_event event h) = Ok b) \/
  fst (_is_function_url_event event h) = Raise AttributeError.
Proof.
  intros Hc Hlive.
  destruct event as [| b | z | f | s | l]; try (right; reflexivity).
  unfold Heap.live in Hlive.
  destruct (h !! l) as [[m | xs] |] eqn:Hl; [| | discriminate].
  - destruct (m !! "requestContext") as [rc |] eqn:Hrc.
    + pose proof (closed_lookup h l m "requestContext" rc Hc Hl Hrc) as Hrcl.
      destruct (Heap.is_dict h rc) eqn:Hd.
      * unfold Heap.is_dict in Hd. destruct rc as [| | | | | l2]; try discriminate.
        destruct (h !! l2) as [[m2 | xs2] |] eqn:Hl2; try discriminate.
        rewrite (classifier_after_stage _ _ _ _
                   (resolved_stage_present h l m l2 m2 Hl Hrc Hl2)).
        destruct (m2 !! "stage") as [v |] eqn:Hv.
        -- pose proof (closed_lookup h l2 m2 "stage" v Hc Hl2 Hv) as Hvl.
           destruct (stage_test_total _ v
                       (live_after_fresh h (ObjDict ∅) v Hvl)) as [b Hb].
           left. exists b. now rewrite Hb.
        -- left. exists true. now rewrite stage_test_string.
      * right. unfold _is_function_url_event, bind.
        now rewrite (resolved_stage_malformed h l m rc Hl Hrc Hrcl Hd).
    + left. exists true.
      rewrite (classifier_after_stage _ _ _ _
                 (resolved_stage_absent h l m Hl Hrc)).
      now rewrite stage_test_string.
  - right. py_unfold. now rewrite Hl.
Qed.

Lemma classifier_raises_only_attribute_error_witness :
  Heap.closed (Sample.malformed (PyInt 7)) = true /\
  Heap.live (Sample.malformed (PyInt 7)) Sample.event = true /\
  ((exists b, fst (_is_function_url_event Sample.event
                     (Sample.malformed (PyInt 7))) = Ok b) \/
   fst (_is_function_url_event Sample.event (Sample.malformed (PyInt 7)))
     = Raise AttributeError).
Proof.
  split; [reflexivity |]. split; [reflexivity |].
  apply (classifier_raises_only_attribute_error
           (Sample.malformed (PyInt 7)) Sample.event); reflexivity.
Defined.

(** X2.  The second disjunct of line 55 only recognises the string
    ["$default"]: a truthy stage that is anything else, a string or not (a
    number, [True], a non-empty list or dict), is classified as an API
    Gateway event. *)
Theorem truthy_stage_is_api_gateway event h h' stage :
  resolved_stage event h = (Ok stage, h') ->
  Heap.truthy stage h' = (Ok true, h') ->
  stage <> PyStr FUNCTION_URL_STAGE ->
  _is_function_url_event event h = (Ok false, h').
Proof.
  intros Hst Ht Hne. rewrite (classifier_after_stage _ _ _ _ Hst).
  unfold stage_test, bind. rewrite Ht. cbn [negb]. unfold ret. f_equal. f_equal.
  destruct stage as [| b | z | f | s | l]; try reflexivity.
  cbn [Heap.eq_str].
  destruct (String.eqb_spec s FUNCTION_URL_STAGE) as [-> | Hs];
    [contradiction | reflexivity].
Qed.

Lemma truthy_stage_is_api_gateway_witness :
  resolved_stage Sample.event (Sample.staged (PyInt 1)) =
    (Ok (PyInt 1), <[3%positive := ObjDict ∅]> (Sample.staged (PyInt 1))) /\
  _is_function_url_event Sample.event (Sample.staged (PyInt 1)) =
    (Ok false, <[3%positive := ObjDict ∅]> (Sample.staged (PyInt 1))).
Proof.
  split; [reflexivity |].
  apply (truthy_stage_is_api_gateway Sample.event (Sample.staged (PyInt 1))
           (<[3%positive := ObjDict ∅]> (Sample.staged (PyInt 1))) (PyInt 1));
    [reflexivity | reflexivity | discriminate].
Defined.

(** * Further properties of the entry point *)

Section HandlerMore.

Variable W : Type.
Variable initialize_services : M (gmap loc pyobj * W) unit.
Variable Mangum : MangumConfig -> pyval -> pyval -> M (gmap loc pyobj * W) pyval.

Local Abbreviation ensure_initialized_ := (ensure_initialized W initialize_services).
Local Abbreviation route_ := (route W Mangum).
Local Abbreviation handler_ := (handler W initialize_services Mangum).
Local Abbreviation invocations_ := (invocations W initialize_services Mangum).
Local Abbreviation first_log :=
  (LogInfo "First invocation — initializing services...").
#[local] Arguments _is_function_url_event : simpl never.

Lemma gate_sets_flag s s1 :
  ensure_initialized_ s = (Ok tt, s1) -> _services_initialized s1 = true.
Proof.
  destruct (_services_initialized s) eqn:Hf.
  - rewrite (ensure_ready W initialize_services s Hf). intros [= <-]. exact Hf.
  - rewrite (ensure_first W initialize_services s Hf).
    destruct (initialize_services (heap s, world s)) as [[u | e |] [h w]];
      intros [= <-]. reflexivity.
Qed.

Lemma handler_after_gate s s1 event context :
  ensure_initialized_ s = (Ok tt, s1) ->
  handler_ event context s = route_ event context s1.
Proof. intros Hg. unfold handler, bind. now rewrite Hg. Qed.

Lemma state_eta (s : state W) :
  mkState (_services_initialized s) (heap s) (world s) (calls s) = s.
Proof. now destruct s. Qed.

(** X3.  An invocation that the classifier rejects, after the gate let it
    through, raises the classifier's exception without calling an adapter;
    the flag is set all the same, so a setup that ran in this invocation is
    not run again by the next one. *)
Theorem classification_error_keeps_initialization s s1 event context e h1 :
  ensure_initialized_ s = (Ok tt, s1) ->
  _is_function_url_event event (heap s1) = (Raise e, h1) ->
  handler_ event context s = (Raise e, mkState true h1 (world s1) (calls s1)) /\
  forall event' context',
    exists cs,
      calls (snd (handler_ event' context'
                    (mkState true h1 (world s1) (calls s1))))
        = calls s1 ++ cs /\
      List.filter is_initialize cs = [].
Proof.
  intros Hg Hcl. split.
  - rewrite (handler_after_gate s s1 event context Hg), route_equation, Hcl.
    now rewrite (gate_sets_flag s s1 Hg).
  - intros event' context'.
    rewrite (handler_ready W initialize_services Mangum event' context'
               (mkState true h1 (world s1) (calls s1)) eq_refl).
    apply (route_calls W Mangum event' context'
             (mkState true h1 (world s1) (calls s1))).
Qed.

(** X4.  An event that is not a dict ([None], a string, a number, a list)
    makes [handler] raise [AttributeError] at line 53, before the [{}]
    default is built: no adapter is called, and heap, application state and
    call record are as the gate left them. *)
Theorem non_dict_event_is_rejected s s1 event context :
  ensure_initialized_ s = (Ok tt, s1) ->
  Heap.live (heap s1) event = true ->
  Heap.is_dict (heap s1) event = false ->
  handler_ event context s = (Raise AttributeError, s1).
Proof.
  intros Hg Hlive Hnd.
  assert (Hcl : _is_function_url_event event (heap s1)
                = (Raise AttributeError, heap s1)).
  { unfold Heap.live, Heap.is_dict in *. py_unfold.
    destruct event as [| | | | | l]; try reflexivity.
    destruct (heap s1 !! l) as [[m | xs] |]; try discriminate. reflexivity. }
  rewrite (handler_after_gate s s1 event context Hg), route_equation, Hcl.
  now rewrite state_eta.
Qed.


(** X6.  What one invocation asks of the outside: the log line and the setup
    call exactly when it finds the flag unset, then at most one adapter
    call, for its own event and context; nothing else, in no other order. *)
Theorem calls_of_one_invocation s event context :
  exists pre post,
    calls (snd (handler_ event context s)) = calls s ++ pre ++ post /\
    (_services_initialized s = true /\ pre = [] \/
     _services_initialized s = false /\
       pre = [first_log; CallInitializeServices]) /\
    (post = [] \/
     exists b, post = [CallMangum
                         (if b : bool then function_url_config
                          else api_gateway_config) event context]).
Proof.
  assert (Hroute : forall s1,
            exists post,
              calls (snd (route_ event context s1)) = calls s1 ++ post /\
              (post = [] \/
               exists b, post = [CallMangum
                                   (if b : bool then function_url_config
                                    else api_gateway_config) event context])).
  { intros s1. rewrite route_equation.
    destruct (_is_function_url_event event (heap s1)) as [[b | e |] h1];
      cbn [fst snd calls].
    - rewrite external_calls. cbn [calls]. eexists. split; [reflexivity |].
      right. now exists b.
    - exists []. rewrite app_nil_r. auto.
    - exists []. rewrite app_nil_r. auto. }
  unfold handler, bind.
  destruct (_services_initialized s) eqn:Hf.
  - rewrite (ensure_ready W initialize_services s Hf).
    destruct (Hroute s) as (post & Hc & Hp).
    exists [], post. cbn [app]. auto.
  - rewrite (ensure_first W initialize_services s Hf).
    destruct (initialize_services (heap s, world s)) as [[u | e |] [h w]];
      cbv beta iota zeta.
    + destruct (Hroute (mkState true h w
                          (calls s ++ [first_log; CallInitializeServices])))
        as (post & Hc & Hp).
      exists [first_log; CallInitializeServices], post.
      rewrite Hc. cbn [calls]. rewrite <- app_assoc. auto.
    + exists [first_log; CallInitializeServices], [].
      cbn [fst snd calls]. rewrite app_nil_r. auto.
    + exists [first_log; CallInitializeServices], [].
      cbn [fst snd calls]. rewrite app_nil_r. auto.
Qed.

(** X7.  With a setup that fails every time, every invocation of the
    process raises, calls [initialize_services] once more, and dispatches
    nothing; the flag is never set. *)
Theorem failing_setup_is_retried_forever evs : forall s,
  (forall env, raised (fst (initialize_services env)) = true) ->
  _services_initialized s = false ->
  let '(rs, s') := invocations_ evs s in
  _services_initialized s' = false /\
  forallb raised rs = true /\
  length rs = length evs /\
  exists cs, calls s' = calls s ++ cs /\
             length (List.filter is_initialize cs) = length evs /\
             List.filter is_dispatch cs = [].
Proof.
  induction evs as [| [event context] evs IH]; intros s Hfail Hf.
  - cbn [invocations]. split; [exact Hf |]. split; [reflexivity |].
    split; [reflexivity |]. exists []. rewrite app_nil_r. auto.
  - cbn [invocations]. unfold handler at 1, bind.
    rewrite (ensure_first W initialize_services s Hf).
    pose proof (Hfail (heap s, world s)) as Hr.
    destruct (initialize_services (heap s, world s)) as [[u | e |] [h w]];
      cbn [fst raised] in Hr; try discriminate.
    cbv beta iota zeta.
    specialize (IH (mkState false h w
                      (calls s ++ [first_log; CallInitializeServices]))
                   Hfail eq_refl).
    destruct (invocations_ evs _) as [rs s2].
    destruct IH as (Hf2 & Hrs & Hlen & cs & Hcs & Hinit & Hdisp).
    cbn [calls] in Hcs.
    split; [exact Hf2 |]. split; [cbn [forallb raised]; exact Hrs |].
    split; [cbn [length]; now rewrite Hlen |].
    exists ([first_log; CallInitializeServices] ++ cs).
    split; [now rewrite Hcs, <- app_assoc |].
    rewrite !List.filter_app, length_app, Hdisp, Hinit. auto.
Qed.



End HandlerMore.

(** * Further properties of interleaved invocations *)

Section ThreadMore.

Variable W : Type.
Variable initialize_services : M (gmap loc pyobj * W) unit.
Variable Mangum : MangumConfig -> pyval -> pyval -> M (gmap loc pyobj * W) pyval.

Local Abbreviation advance_ := (advance W initialize_services Mangum).
Local Abbreviation step_ := (step W initialize_services Mangum).
Local Abbreviation exec_ := (exec W initialize_services Mangum).
Local Abbreviation handler_ := (handler W initialize_services Mangum).
Local Abbreviation invocations_ := (invocations W initialize_services Mangum).
Local Abbreviation route_ := (route W Mangum).
Local Abbreviation setup_calls s :=
  (length (List.filter is_initialize (calls s))).
#[local] Arguments route : simpl never.
#[local] Arguments _is_function_url_event : simpl never.

(** A step either keeps the number of setup calls, or turns one pending
    caller into one setup call. *)
Lemma advance_budget t s :
  setup_calls (snd (advance_ t s)) + Nat.b2n (pending (fst (advance_ t s)))
    <= setup_calls s + Nat.b2n (pending t).
Proof.
  unfold advance, pending.
  destruct (th_pc t) eqn:Hpc;
    cbn [fst snd th_pc calls logger_info write_flag Nat.b2n].
  - destruct (_services_initialized s); cbn [fst snd th_pc Nat.b2n]; lia.
  - rewrite List.filter_app, length_app. cbn. lia.
  - rewrite List.filter_app, length_app. cbn. lia.
  - destruct (initialize_services (heap s, world s)) as [[u | e |] [h w]];
      cbn [fst snd th_pc calls Nat.b2n]; lia.
  - lia.
  - destruct (route_calls W Mangum (th_event t) (th_context t) s)
      as (cs & Hcs & Hno).
    destruct (route_ (th_event t) (th_context t) s) as [r s'].
    cbn [fst snd th_pc Nat.b2n] in *.
    rewrite Hcs, List.filter_app, Hno, app_nil_r. lia.
  - rewrite Hpc. cbn [Nat.b2n]. lia.
Qed.

Lemma filter_insert_length (p : thread -> bool) pool : forall i t t',
  pool !! i = Some t ->
  length (List.filter p (<[i := t']> pool)) + Nat.b2n (p t)
    = length (List.filter p pool) + Nat.b2n (p t').
Proof.
  induction pool as [| x pool IH]; intros i t t' Hi; [discriminate |].
  destruct i as [| i].
  - change (Some x = Some t) in Hi. injection Hi as ->.
    change (<[0 := t']> (t :: pool)) with (t' :: pool).
    cbn [List.filter]. destruct (p t), (p t'); cbn [length Nat.b2n]; lia.
  - change (pool !! i = Some t) in Hi. specialize (IH i t t' Hi).
    change (<[S i := t']> (x :: pool)) with (x :: <[i := t']> pool).
    cbn [List.filter]. destruct (p x); cbn [length]; lia.
Qed.

Lemma step_budget i c :
  setup_calls (snd (step_ i c)) + length (List.filter pending (fst (step_ i c)))
    <= setup_calls (snd c) + length (List.filter pending (fst c)).
Proof.
  unfold step. destruct (fst c !! i) as [t |] eqn:Hi; [| lia].
  pose proof (advance_budget t (snd c)) as Hb.
  destruct (advance_ t (snd c)) as [t' s']. cbn [fst snd] in *.
  pose proof (filter_insert_length pending (fst c) i t t' Hi). lia.
Qed.

Lemma exec_budget sched : forall c,
  setup_calls (snd (exec_ sched c))
    + length (List.filter pending (fst (exec_ sched c)))
    <= setup_calls (snd c) + length (List.filter pending (fst c)).
Proof.
  induction sched as [| i sched IH]; intros c; [cbn; lia |].
  rewrite exec_cons. pose proof (IH (step_ i c)).
  pose proof (step_budget i c). lia.
Qed.

Lemma arrive_pending evs :
  length (List.filter pending (arrive evs)) = length evs.
Proof.
  induction evs as [| [event context] evs IH]; [reflexivity |].
  change (arrive ((event, context) :: evs))
    with (mkThread event context AtCheck :: arrive evs).
  cbn [List.filter pending th_pc length]. now rewrite IH.
Qed.

(** X10.  Without a lock setup can run more than once, but never more often
    than there are callers: however the invocations interleave, each of them
    calls [initialize_services] at most once. *)
Theorem setup_calls_bounded_by_callers evs s sched :
  length (List.filter is_initialize
            (calls (snd (exec_ sched (arrive evs, s)))))
    <= length (List.filter is_initialize (calls s)) + length evs.
Proof.
  pose proof (exec_budget sched (arrive evs, s)) as Hb.
  cbn [fst snd] in Hb. rewrite arrive_pending in Hb. lia.
Qed.

Lemma exec_app a b c : exec_ (a ++ b) c = exec_ b (exec_ a c).
Proof. unfold exec. apply fold_left_app. Qed.

Lemma step_at done t rest s :
  step_ (length done) (done ++ t :: rest, s)
    = (done ++ fst (advance_ t s) :: rest, snd (advance_ t s)).
Proof.
  unfold step. cbn [fst snd].
  rewrite (list_lookup_middle done rest t (length done) eq_refl).
  destruct (advance_ t s) as [t' s']. cbn [fst snd].
  rewrite insert_app_r_alt by lia. now rewrite Nat.sub_diag.
Qed.

Lemma exec_repeat_at n done rest : forall t s,
  exec_ (repeat (length done) n) (done ++ t :: rest, s)
    = (done ++ fst (Nat.iter n (fun c => advance_ (fst c) (snd c)) (t, s))
         :: rest,
       snd (Nat.iter n (fun c => advance_ (fst c) (snd c)) (t, s))).
Proof.
  induction n as [| n IH]; intros t s; [reflexivity |].
  cbn [repeat]. rewrite exec_cons, step_at, IH, Nat.iter_succ_r.
  cbn [fst snd]. now rewrite <- (surjective_pairing (advance_ t s)).
Qed.

Lemma six_steps event context s :
  Nat.iter 6 (fun c => advance_ (fst c) (snd c))
    (mkThread event context AtCheck, s)
  = (mkThread event context (Returned (fst (handler_ event context s))),
     snd (handler_ event context s)).
Proof.
  pose proof (exec_repeat_at 6 [] [] (mkThread event context AtCheck) s) as H1.
  pose proof (alone_is_handler W initialize_services Mangum event context s)
    as H2.
  cbn [repeat length app] in H1. rewrite H2 in H1.
  destruct (handler_ event context s) as [r s'].
  destruct (Nat.iter 6 _ _) as [t6 s6]. cbn [fst snd] in *.
  injection H1 as -> ->. reflexivity.
Qed.

Lemma in_turn_succ k n : in_turn k (S n) = repeat k 6 ++ in_turn (S k) n.
Proof. reflexivity. Qed.

Lemma in_turn_is_invocations evs : forall done s,
  exec_ (in_turn (length done) (length evs)) (done ++ arrive evs, s)
    = (done ++ returned evs (fst (invocations_ evs s)),
       snd (invocations_ evs s)).
Proof.
  induction evs as [| [event context] evs IH]; intros done s; [reflexivity |].
  cbn [length arrive map fst snd invocations].
  rewrite in_turn_succ, exec_app, exec_repeat_at, six_steps.
  destruct (handler_ event context s) as [r s1]. cbn [fst snd].
  pose proof (IH (done ++ [mkThread event context (Returned r)]) s1) as IH'.
  rewrite length_app in IH'. cbn [length] in IH'.
  rewrite Nat.add_1_r, <- !app_assoc in IH'. cbn [app] in IH'.
  unfold arrive in IH'. rewrite IH'.
  destruct (invocations_ evs s1) as [rs s2]. reflexivity.
Qed.

(** X11.  Sequential use is one schedule of the interleaving semantics:
    letting the callers run one after the other, each to its end, gives each
    caller the result, and the process the state, of calling [handler] on
    the events in sequence. *)
Theorem callers_in_turn_are_invocations evs s :
  exec_ (in_turn 0 (length evs)) (arrive evs, s)
    = (returned evs (fst (invocations_ evs s)), snd (invocations_ evs s)).
Proof. exact (in_turn_is_invocations evs [] s). Qed.

End ThreadMore.

(** ** The further properties at sample events *)

Lemma classification_error_keeps_initialization_witness :
  handler unit Sample.setup_ok Sample.adapter Sample.event PyNone
    (mkState true (Sample.malformed PyNone) tt [])
  = (Raise AttributeError,
     mkState true (<[2%positive := ObjDict ∅]> (Sample.malformed PyNone)) tt []).
Proof.
  exact (proj1 (classification_error_keeps_initialization
                  unit Sample.setup_ok Sample.adapter
                  (mkState true (Sample.malformed PyNone) tt [])
                  (mkState true (Sample.malformed PyNone) tt [])
                  Sample.event PyNone AttributeError
                  (<[2%positive := ObjDict ∅]> (Sample.malformed PyNone))
                  eq_refl eq_refl)).
Defined.

Lemma non_dict_event_is_rejected_witness :
  handler unit Sample.setup_ok Sample.adapter (PyStr "ping") PyNone
    (loaded unit Sample.no_stage tt)
  = (Raise AttributeError,
     mkState true Sample.no_stage tt
       [LogInfo "First invocation — initializing services...";
        CallInitializeServices]).
Proof.
  exact (non_dict_event_is_rejected unit Sample.setup_ok Sample.adapter
           (loaded unit Sample.no_stage tt)
           (mkState true Sample.no_stage tt
              [LogInfo "First invocation — initializing services...";
               CallInitializeServices])
           (PyStr "ping") PyNone eq_refl eq_refl eq_refl).
Defined.


Lemma failing_setup_is_retried_forever_witness :
  _services_initialized
    (snd (invocations unit Sample.setup_fails Sample.adapter
            [(Sample.event, PyNone); (Sample.event, PyNone)]
            (loaded unit Sample.no_stage tt))) = false.
Proof.
  pose proof (failing_setup_is_retried_forever
                unit Sample.setup_fails Sample.adapter
                [(Sample.event, PyNone); (Sample.event, PyNone)]
                (loaded unit Sample.no_stage tt)
                (fun env => eq_refl) eq_refl) as Hall.
  destruct (invocations unit Sample.setup_fails Sample.adapter _ _) as [rs s'].
  exact (proj1 Hall).
Defined.


